(** * geminiService: the inference client of [src/services/geminiService.ts]

    A shallow embedding of the two exported operations,
    [estimateNutritionFromImage] (the spec's [classifyFood]) and
    [getDailyTip], together with the parts of the JavaScript runtime they
    lean on: strings as UTF-16 code units, [String.prototype.trim],
    [JSON.parse], [ToBoolean], property reads and [try]/[catch]. *)

From Stdlib Require Import List NArith ZArith Bool String Ascii Lia.
Import ListNotations.

Set Implicit Arguments.
Set Warnings "-register-all".


(* ================================================================= *)
(** ** JavaScript strings *)

(** A JavaScript string is a sequence of UTF-16 code units. *)
Definition jsstring := list N.

Module Utf16.

(** Source literals are written as Rocq strings, that is as UTF-8 bytes;
    [decode] turns them into code units (one-, two- and three-byte
    sequences: the Basic Multilingual Plane, all the source uses). *)
Fixpoint decode (bs : list N) : jsstring :=
  match bs with
  | [] => []
  | b0 :: r0 =>
      if (b0 <? 128)%N then b0 :: decode r0
      else match r0 with
           | [] => [b0]
           | b1 :: r1 =>
               if (b0 <? 224)%N
               then ((b0 - 192) * 64 + (b1 - 128))%N :: decode r1
               else match r1 with
                    | [] => [b0; b1]
                    | b2 :: r2 =>
                        ((b0 - 224) * 4096 + (b1 - 128) * 64 + (b2 - 128))%N
                          :: decode r2
                    end
           end
  end.

Definition lit (s : string) : jsstring :=
  decode (map N_of_ascii (list_ascii_of_string s)).

(** The characters a Rocq string literal cannot hold conveniently. *)
Definition dq : jsstring := [34%N].
Definition nl : jsstring := [10%N].

End Utf16.

Notation "'js' s" := (Utf16.lit s%string) (at level 9, s at level 0, only parsing).

Fixpoint jsstring_eqb (a b : jsstring) : bool :=
  match a, b with
  | [], [] => true
  | x :: a', y :: b' => (x =? y)%N && jsstring_eqb a' b'
  | _, _ => false
  end.

(** [String.prototype.trim] strips WhiteSpace and LineTerminator code points
    (ECMA-262, 22.1.3.32 and tables 35, 36) from both ends. *)
Definition is_js_whitespace (c : N) : bool :=
  ((9 <=? c) && (c <=? 13) || (c =? 32) || (c =? 160) || (c =? 5760)
   || (8192 <=? c) && (c <=? 8202) || (c =? 8232) || (c =? 8233)
   || (c =? 8239) || (c =? 8287) || (c =? 12288) || (c =? 65279))%N.

Fixpoint trimStart (s : jsstring) : jsstring :=
  match s with
  | c :: r => if is_js_whitespace c then trimStart r else s
  | [] => []
  end.

Definition trim (s : jsstring) : jsstring :=
  rev (trimStart (rev (trimStart s))).

(* ================================================================= *)
(** ** JavaScript values *)

(** A number that came out of JSON text is kept as the exact decimal the
    text denotes, [(-1)^neg * mant * 10^exp10]; the IEEE double the runtime
    stores is its rounding, and the one test the code applies to a number
    ([ToBoolean]) is decided on the exact value, see [num_is_zero]. *)
Record jsnumber : Type := mkNum { num_neg : bool; num_mant : N; num_exp : Z }.

Inductive JsValue : Type :=
| JUndefined
| JNull
| JBool (b : bool)
| JNum (n : jsnumber)
| JStr (s : jsstring)
| JArr (items : list JsValue)
| JObj (props : list (jsstring * JsValue)).

(** What a statement can throw, and what a promise can reject with. *)
Inductive exn : Type :=
| Error (message : JsValue)   (* [new Error(x)]; the message is [ToString x] *)
| TypeError
| SyntaxError
| ApiError (status : N) (message : jsstring). (* the SDK's own error *)

(** The message of an [Error] built from a string. *)
Definition error_message (e : exn) : option jsstring :=
  match e with
  | Error (JStr s) => Some s
  | _ => None
  end.

(** A double is zero when the decimal is zero or rounds to zero: binary64
    rounds to nearest, ties to even, so exactly the values of magnitude at
    most [2^-1075] (half the least subnormal) become [0]. *)
Definition num_is_zero (n : jsnumber) : bool :=
  ((num_mant n =? 0)%N
   || (num_exp n <? 0)%Z
      && (Z.of_N (num_mant n) * 2 ^ 1075 <=? 10 ^ (- num_exp n))%Z).

(** [ToBoolean] (ECMA-262, 7.1.2). *)
Definition truthy (v : JsValue) : bool :=
  match v with
  | JUndefined | JNull => false
  | JBool b => b
  | JNum n => negb (num_is_zero n)
  | JStr s => match s with [] => false | _ => true end
  | JArr _ | JObj _ => true
  end.

Fixpoint lookup (k : jsstring) (props : list (jsstring * JsValue))
  : option JsValue :=
  match props with
  | [] => None
  | (k', v) :: r => if jsstring_eqb k k' then Some v else lookup k r
  end.

(** [CreateDataProperty]: an existing key keeps its place and takes the new
    value, a new key goes last. *)
Fixpoint obj_set (props : list (jsstring * JsValue)) (k : jsstring)
  (v : JsValue) : list (jsstring * JsValue) :=
  match props with
  | [] => [(k, v)]
  | (k', v') :: r =>
      if jsstring_eqb k k' then (k', v) :: r else (k', v') :: obj_set r k v
  end.

(** The property read [v.k], for the three names the service reads,
    [error], [name] and [nutrition]: none of them is defined on
    [Object.prototype], [Array.prototype] or on the wrappers of the
    primitives, so only an object's own properties answer; reading from
    [null] or [undefined] throws. *)
Definition get (v : JsValue) (k : jsstring) : exn + JsValue :=
  match v with
  | JUndefined | JNull => inl TypeError
  | JObj props =>
      match lookup k props with
      | Some x => inr x
      | None => inr JUndefined
      end
  | _ => inr JUndefined
  end.

(* ================================================================= *)
(** ** [JSON.parse] (ECMA-262, 25.5.1; the grammar of ECMA-404) *)

Module JSON.

Local Open Scope N_scope.

Definition is_ws (c : N) : bool :=
  (c =? 9) || (c =? 10) || (c =? 13) || (c =? 32).

Fixpoint skip_ws (s : jsstring) : jsstring :=
  match s with
  | c :: r => if is_ws c then skip_ws r else s
  | [] => []
  end.

Definition is_digit (c : N) : bool := (48 <=? c) && (c <=? 57).

Definition hex_val (c : N) : option N :=
  if is_digit c then Some (c - 48)
  else if (65 <=? c) && (c <=? 70) then Some (c - 55)
  else if (97 <=? c) && (c <=? 102) then Some (c - 87)
  else None.

Definition hex4 (a b c d : N) : option N :=
  match hex_val a, hex_val b, hex_val c, hex_val d with
  | Some x, Some y, Some z, Some w => Some (((x * 16 + y) * 16 + z) * 16 + w)
  | _, _, _, _ => None
  end.

(** The single-character escapes: the code unit [\c] stands for. *)
Definition escape (c : N) : option N :=
  if (c =? 34) || (c =? 92) || (c =? 47) then Some c
  else if c =? 98 then Some 8
  else if c =? 102 then Some 12
  else if c =? 110 then Some 10
  else if c =? 114 then Some 13
  else if c =? 116 then Some 9
  else None.

(** The characters of a string after its opening quote, up to and
    including the closing one; [acc] holds the string so far, reversed. *)
Fixpoint string_body (s : jsstring) (acc : jsstring)
  : option (jsstring * jsstring) :=
  match s with
  | [] => None
  | c :: r =>
      if c =? 34 then Some (rev acc, r)
      else if c =? 92 then
        match r with
        | [] => None
        | e :: r1 =>
            if e =? 117 then
              match r1 with
              | h1 :: h2 :: h3 :: h4 :: r2 =>
                  match hex4 h1 h2 h3 h4 with
                  | Some u => string_body r2 (u :: acc)
                  | None => None
                  end
              | _ => None
              end
            else
              match escape e with
              | Some u => string_body r1 (u :: acc)
              | None => None
              end
        end
      else if c <? 32 then None
      else string_body r (c :: acc)
  end.

(** A maximal run of digits: its value continuing [acc], how many there
    were, and what follows. *)
Fixpoint digits (s : jsstring) (acc : N) (count : nat)
  : N * nat * jsstring :=
  match s with
  | c :: r => if is_digit c then digits r (acc * 10 + (c - 48)) (S count)
              else (acc, count, s)
  | [] => (acc, count, [])
  end.

(** A number is an optional minus; then a lone 0, or a digit 1-9 and any
    digits; then optionally a point and one or more digits; then
    optionally e or E, an optional sign and one or more digits. *)
Definition sign (s : jsstring) : bool * jsstring :=
  match s with
  | c :: r => if c =? 45 then (true, r) else (false, s)
  | [] => (false, s)
  end.

Definition int_part (s : jsstring) : option (N * jsstring) :=
  match s with
  | c :: r =>
      if c =? 48 then Some (0, r)
      else if is_digit c then
             let '(m, _, r') := digits r (c - 48) 1 in Some (m, r')
           else None
  | [] => None
  end.

(** The digits after the point extend the mantissa [m]; [scale] counts
    them. *)
Definition frac_part (m : N) (s : jsstring) : option (N * Z * jsstring) :=
  match s with
  | c :: r =>
      if c =? 46 then
        let '(m', n, r') := digits r m O in
        match n with
        | O => None
        | S _ => Some (m', Z.of_nat n, r')
        end
      else Some (m, 0%Z, s)
  | [] => Some (m, 0%Z, s)
  end.

Definition exp_sign (s : jsstring) : bool * jsstring :=
  match s with
  | c :: r => if c =? 45 then (true, r)
              else if c =? 43 then (false, r)
              else (false, s)
  | [] => (false, s)
  end.

Definition exp_part (s : jsstring) : option (Z * jsstring) :=
  match s with
  | c :: r =>
      if (c =? 101) || (c =? 69) then
        let (eneg, r0) := exp_sign r in
        let '(e, n, r1) := digits r0 0 O in
        match n with
        | O => None
        | S _ => Some (if eneg then (- Z.of_N e)%Z else Z.of_N e, r1)
        end
      else Some (0%Z, s)
  | [] => Some (0%Z, s)
  end.

Definition number (s : jsstring) : option (jsnumber * jsstring) :=
  let (neg, s1) := sign s in
  match int_part s1 with
  | None => None
  | Some (m, s2) =>
      match frac_part m s2 with
      | None => None
      | Some (m', scale, s3) =>
          match exp_part s3 with
          | None => None
          | Some (e, s4) => Some (mkNum neg m' (e - scale)%Z, s4)
          end
      end
  end.

(** [s] starts with the keyword [kw]: what follows it. *)
Fixpoint keyword (kw s : jsstring) : option jsstring :=
  match kw, s with
  | [], _ => Some s
  | k :: kw', c :: r => if k =? c then keyword kw' r else None
  | _ :: _, [] => None
  end.

(** Recursive descent on the text; every call spends one unit of [fuel],
    and [parse] below gives more than any text of that length can use. *)
Fixpoint value (fuel : nat) (s : jsstring) {struct fuel}
  : option (JsValue * jsstring) :=
  match fuel with
  | O => None
  | S fuel' =>
      match skip_ws s with
      | [] => None
      | c :: r =>
          if c =? 123 then
            match skip_ws r with
            | c' :: r' => if c' =? 125 then Some (JObj [], r')
                          else members fuel' (c' :: r') []
            | [] => None
            end
          else if c =? 91 then
            match skip_ws r with
            | c' :: r' => if c' =? 93 then Some (JArr [], r')
                          else elements fuel' (c' :: r') []
            | [] => None
            end
          else if c =? 34 then
            match string_body r [] with
            | Some (str, r') => Some (JStr str, r')
            | None => None
            end
          else if c =? 116 then
            option_map (fun r' => (JBool true, r')) (keyword (js "rue") r)
          else if c =? 102 then
            option_map (fun r' => (JBool false, r')) (keyword (js "alse") r)
          else if c =? 110 then
            option_map (fun r' => (JNull, r')) (keyword (js "ull") r)
          else
            match number (c :: r) with
            | Some (n, r') => Some (JNum n, r')
            | None => None
            end
      end
  end

(** The members of an object after its brace, [acc] those read so far. *)
with members (fuel : nat) (s : jsstring)
       (acc : list (jsstring * JsValue)) {struct fuel}
  : option (JsValue * jsstring) :=
  match fuel with
  | O => None
  | S fuel' =>
      match skip_ws s with
      | c :: r =>
          if c =? 34 then
            match string_body r [] with
            | Some (key, r1) =>
                match skip_ws r1 with
                | c1 :: r2 =>
                    if c1 =? 58 then
                      match value fuel' r2 with
                      | Some (v, r3) =>
                          match skip_ws r3 with
                          | c3 :: r4 =>
                              if c3 =? 44
                              then members fuel' r4 (obj_set acc key v)
                              else if c3 =? 125
                                   then Some (JObj (obj_set acc key v), r4)
                                   else None
                          | [] => None
                          end
                      | None => None
                      end
                    else None
                | [] => None
                end
            | None => None
            end
          else None
      | [] => None
      end
  end

(** The elements of an array after its bracket, [acc] reversed. *)
with elements (fuel : nat) (s : jsstring) (acc : list JsValue)
       {struct fuel} : option (JsValue * jsstring) :=
  match fuel with
  | O => None
  | S fuel' =>
      match value fuel' s with
      | Some (v, r) =>
          match skip_ws r with
          | c :: r' =>
              if c =? 44 then elements fuel' r' (v :: acc)
              else if c =? 93 then Some (JArr (rev (v :: acc)), r')
                   else None
          | [] => None
          end
      | None => None
      end
  end.

(** [JSON.parse text]: one value between optional white space, or a
    [SyntaxError]. *)
Definition parse (text : jsstring) : exn + JsValue :=
  match value (2 * List.length text + 2)%nat text with
  | Some (v, r) =>
      match skip_ws r with
      | [] => inr v
      | _ :: _ => inl SyntaxError
      end
  | None => inl SyntaxError
  end.

End JSON.

(* ================================================================= *)
(** ** The remote service and the effects of a call *)

(** The SDK's request, as far as the service fills it in. *)
Inductive SchemaType : Type := OBJECT | NUMBER | STRING.

Inductive Schema : Type :=
| mkSchema (type : SchemaType) (description : option jsstring)
    (properties : list (jsstring * Schema)) (required : list jsstring).

Inductive Part : Type :=
| inlineData (mimeType data : jsstring)
| text_part (text : jsstring).

Inductive Contents : Type :=
| parts (ps : list Part)
| plain (prompt : jsstring).

Record Config : Type :=
  { responseMimeType : jsstring; responseSchema : Schema }.

Record Request : Type :=
  { req_model : jsstring; req_contents : Contents; req_config : option Config }.

(** The response: [text] is the SDK's getter, [undefined] ([None]) when the
    candidate carries no text part. *)
Record Response : Type := { text : option jsstring }.

(** How the promise of [ai.models.generateContent] settles. *)
Inductive Outcome : Type :=
| Resolves (response : Response)
| Rejects (reason : exn).

(** An [async] function body: what it asks of the world, in order, and how
    it ends.  [Throw] is an uncaught exception, which rejects the function's
    promise. *)
Inductive Prog (A : Type) : Type :=
| Ret (a : A)
| Throw (e : exn)
| GenerateContent (request : Request) (k : Outcome -> Prog A)
| ConsoleError (label : jsstring) (error : exn) (k : Prog A).

Arguments Throw {A} e.

Fixpoint bind {A B} (p : Prog A) (f : A -> Prog B) : Prog B :=
  match p with
  | Ret a => f a
  | Throw e => Throw e
  | GenerateContent r k => GenerateContent r (fun o => bind (k o) f)
  | ConsoleError l e k => ConsoleError l e (bind k f)
  end.

(** [try { p } catch (error) { h error }] *)
Fixpoint try_catch {A} (p : Prog A) (h : exn -> Prog A) : Prog A :=
  match p with
  | Ret a => Ret a
  | Throw e => h e
  | GenerateContent r k => GenerateContent r (fun o => try_catch (k o) h)
  | ConsoleError l e k => ConsoleError l e (try_catch k h)
  end.

Declare Scope prog_scope.
Delimit Scope prog_scope with prog.
Bind Scope prog_scope with Prog.

Notation "x <- p ;; q" := (bind p (fun x => q))
  (at level 100, p at next level, right associativity) : prog_scope.
Notation "p ;; q" := (bind p (fun _ => q))
  (at level 100, right associativity) : prog_scope.

(** A pure step that may throw. *)
Definition lift {A} (r : exn + A) : Prog A :=
  match r with
  | inl e => Throw e
  | inr a => Ret a
  end.

(** [await ai.models.generateContent(request)] *)
Definition generateContent (request : Request) : Prog Response :=
  GenerateContent request
    (fun o => match o with
              | Resolves response => Ret response
              | Rejects reason => Throw reason
              end).

Definition console_error (label : jsstring) (error : exn) : Prog unit :=
  ConsoleError label error (Ret tt).

(** [if (c) throw e;] *)
Definition throw_if (c : bool) (e : exn) : Prog unit :=
  if c then Throw e else Ret tt.

(** [p || q], the right operand evaluated only when the left is false. *)
Definition or_else (p q : Prog bool) : Prog bool :=
  (b <- p ;; if b then Ret true else q)%prog.

(** [t.trim()] on the value of [response.text]. *)
Definition String_trim (t : option jsstring) : Prog jsstring :=
  match t with
  | Some s => Ret (trim s)
  | None => Throw TypeError
  end.

(** What the world sees of a call, and how the call's promise settles. *)
Inductive Event : Type :=
| Requested (request : Request)
| Logged (label : jsstring) (error : exn).

Inductive Settled (A : Type) : Type :=
| Fulfilled (a : A)
| RejectedWith (e : exn).

Arguments RejectedWith {A} e.

(** The remote endpoint: how it settles the request it receives as the
    [sent]-th of the session. *)
Definition Remote := nat -> Request -> Outcome.

Fixpoint run {A} (remote : Remote) (sent : nat) (p : Prog A)
  : list Event * Settled A :=
  match p with
  | Ret a => ([], Fulfilled a)
  | Throw e => ([], RejectedWith e)
  | GenerateContent r k =>
      let (trace, res) := run remote (S sent) (k (remote sent r)) in
      (Requested r :: trace, res)
  | ConsoleError l e k =>
      let (trace, res) := run remote sent k in
      (Logged l e :: trace, res)
  end.

Definition requests (trace : list Event) : list Request :=
  flat_map (fun ev => match ev with
                      | Requested r => [r]
                      | Logged _ _ => []
                      end) trace.

(* ================================================================= *)
(** ** The service: [src/services/geminiService.ts] *)

Import Utf16.

Definition model : jsstring := Eval vm_compute in js "gemini-2.5-flash".

Definition nutritionSchema : Schema :=
  mkSchema OBJECT None
    [ (js "calories",
       mkSchema NUMBER (Some (js "Estimated calories for the portion.")) [] []);
      (js "protein",
       mkSchema NUMBER (Some (js "Estimated grams of protein.")) [] []);
      (js "carbs",
       mkSchema NUMBER (Some (js "Estimated grams of carbohydrates.")) [] []);
      (js "fat",
       mkSchema NUMBER (Some (js "Estimated grams of fat.")) [] []) ]
    [ js "calories"; js "protein"; js "carbs"; js "fat" ].

Definition foodDetectionSchema : Schema :=
  mkSchema OBJECT None
    [ (js "error",
       mkSchema STRING
         (Some (js "An error message if the food is not recognized or the image has no food."))
         [] []);
      (js "name",
       mkSchema STRING (Some (js "The name of the detected dish or food."))
         [] []);
      (js "portionSize",
       mkSchema STRING
         (Some (js "A typical serving size, e.g., " ++ dq ++ js "1 unit" ++ dq
                ++ js ", " ++ dq ++ js "1 plate" ++ dq ++ js ", " ++ dq
                ++ js "1 slice" ++ dq ++ js ", " ++ dq ++ js "1 bowl" ++ dq
                ++ js ", " ++ dq ++ js "100g" ++ dq ++ js "."))
         [] []);
      (js "nutrition", nutritionSchema) ]
    [].

(** The template literal of [estimateNutritionFromImage], line by line. *)
Definition food_prompt_lines : list jsstring :=
    [
     js "You are a nutritional expert specialized in Argentine food and everyday international dishes.";
     js "Analyze the attached image and identify the SINGLE primary food or dish.";
     [];
     js "Your goals:";
     js "- Always choose the closest reasonable dish/food, even if it is not a perfect match.";
     js "- Only use " ++ dq ++ js "error" ++ dq ++ js " if the image clearly does not contain food or is impossible to interpret.";
     [];
     js "### A. Argentine main dishes (prefer these when they match)";
     js "- Empanada de carne";
     js "- Empanada de pollo";
     js "- Empanada de jamón y queso";
     js "- Milanesa de carne";
     js "- Milanesa de pollo";
     js "- Milanesa napolitana";
     js "- Asado (carne vacuna a la parrilla)";
     js "- Chorizo a la parrilla / Choripán";
     js "- Provoleta";
     js "- Pollo al horno con papas";
     js "- Pastel de papa";
     js "- Locro";
     js "- Humita en chala";
     js "- Pizza muzzarella";
     js "- Pizza napolitana";
     js "- Pizza de fugazzeta";
     js "- Pizzanesa";
     js "- Fideos con salsa de tomate (fideos con tuco)";
     js "- Fideos con manteca y queso rallado";
     js "- Ñoquis de papa con salsa";
     js "- Arroz con pollo";
     js "- Polenta con salsa de tomate y queso";
     js "- Hamburguesa casera con pan";
     js "- Sandwich de milanesa";
     js "- Ensalada mixta (lechuga, tomate, cebolla)";
     js "- Ensalada rusa (papa, zanahoria, arvejas, mayonesa)";
     js "- Tarta de verdura o jamón y queso";
     js "- Tortilla de papa (tortilla española)";
     js "- Pancho (hot dog argentino)";
     [];
     js "### B. Common international / generic dishes";
     js "- Pasta con salsa de tomate (spaghetti, penne, etc.)";
     js "- Pasta con salsa blanca / crema";
     js "- Lasagna";
     js "- Pizza de pepperoni";
     js "- Cheeseburger (hamburguesa con queso)";
     js "- Hot dog";
     js "- Sushi (rolls variados)";
     js "- Tacos de carne";
     js "- Tacos de pollo";
     js "- Burrito";
     js "- Wrap de pollo";
     js "- Curry de pollo con arroz";
     js "- Bowl de arroz con vegetales";
     js "- Pollo grillado con guarnición";
     js "- Filete de salmón grillado";
     js "- Fish and chips (pescado frito con papas)";
     js "- Stir-fry de vegetales con arroz";
     js "- Sandwich de jamón y queso";
     js "- Omelette con queso y vegetales";
     js "- Sopa (sopa de verduras, sopa de pollo, sopa cremosa)";
     [];
     js "### C. Fruits (as main item)";
     js "- Banana";
     js "- Manzana";
     js "- Naranja";
     js "- Mandarina";
     js "- Pera";
     js "- Uvas";
     js "- Sandía";
     js "- Melón";
     js "- Frutilla / fresa";
     js "- Arándanos";
     js "- Kiwi";
     js "- Ananá / piña";
     js "- Durazno";
     js "- Ciruela";
     [];
     js "### D. Vegetables / sides";
     js "- Papa hervida";
     js "- Papa al horno";
     js "- Papa frita (french fries)";
     js "- Batata / camote";
     js "- Zanahoria";
     js "- Tomate";
     js "- Lechuga";
     js "- Cebolla";
     js "- Morrón / pimiento";
     js "- Zucchini / zapallito";
     js "- Brócoli";
     js "- Espinaca";
     js "- Repollo";
     js "- Mix de vegetales salteados";
     js "- Ensalada variada en bowl";
     [];
     js "### E. Desserts and sweets";
     js "- Helado en pote (1 o 2 bochas)";
     js "- Flan con dulce de leche";
     js "- Panqueque con dulce de leche";
     js "- Brownie";
     js "- Torta de chocolate";
     js "- Tiramisu";
     js "- Alfajor de dulce de leche";
     js "- Factura (medialuna, vigilante, etc.)";
     js "- Galletitas dulces";
     [];
     js "### F. Drinks (if they are clearly the main item)";
     js "- Vaso de agua";
     js "- Gaseosa (cola)";
     js "- Jugo de fruta";
     js "- Café";
     js "- Mate";
     js "- Cerveza";
     [];
     js "### Behavior rules";
     [];
     js "1. ALWAYS try to classify the food as one of the items above or the closest similar dish.";
     js "   - Example: any spaghetti-like pasta with red sauce -> " ++ dq ++ js "Pasta con salsa de tomate" ++ dq ++ js ".";
     js "   - Example: any grilled steak with side -> " ++ dq ++ js "Asado" ++ dq ++ js " or " ++ dq ++ js "meat dish" ++ dq ++ js " depending on the image.";
     js "2. If there are multiple items on the plate, choose the one that visually occupies the most space.";
     js "3. For portionSize, use natural labels like:";
     js "   - " ++ dq ++ js "1 unit" ++ dq ++ js ", " ++ dq ++ js "2 units" ++ dq;
     js "   - " ++ dq ++ js "1 plate" ++ dq ++ js ", " ++ dq ++ js "1 slice" ++ dq ++ js ", " ++ dq ++ js "1 bowl" ++ dq;
     js "   - " ++ dq ++ js "100g approx." ++ dq;
     js "4. Nutrition values must be your best realistic estimate for that portion:";
     js "   - calories (kcal)";
     js "   - protein (grams)";
     js "   - carbs (grams)";
     js "   - fat (grams)";
     js "5. ONLY use error if:";
     js "   - The image clearly has no food (for example, a car, a person, a wall), or";
     js "   - It is so blurred or dark that you cannot even guess the type of food.";
     [];
     js "You MUST return a JSON object that matches this structure:";
     [];
     js "{";
     js "  " ++ dq ++ js "error" ++ dq ++ js ": string | null,";
     js "  " ++ dq ++ js "name" ++ dq ++ js ": string,";
     js "  " ++ dq ++ js "portionSize" ++ dq ++ js ": string,";
     js "  " ++ dq ++ js "nutrition" ++ dq ++ js ": {";
     js "    " ++ dq ++ js "calories" ++ dq ++ js ": number,";
     js "    " ++ dq ++ js "protein" ++ dq ++ js ": number,";
     js "    " ++ dq ++ js "carbs" ++ dq ++ js ": number,";
     js "    " ++ dq ++ js "fat" ++ dq ++ js ": number";
     js "  }";
     js "}"
    ].

Definition food_prompt : jsstring :=
  Eval vm_compute in
  nl ++ List.concat (map (fun line => line ++ nl) food_prompt_lines).

Definition COULD_NOT_IDENTIFY : jsstring :=
  Eval vm_compute in
  js "Could not identify the food. Please try another photo.".

Definition FAILED_TO_ANALYZE : jsstring :=
  Eval vm_compute in
  js "Failed to analyze image. The food might not be recognized or there was a network issue.".

(** The labels of the two [console.error] lines. *)
Definition API_LABEL : jsstring :=
  Eval vm_compute in js "Gemini API error:".
Definition TIP_LABEL : jsstring :=
  Eval vm_compute in js "Gemini tip generation error:".

Definition food_request (base64Image : jsstring) : Request :=
  {| req_model := model;
     req_contents :=
       parts [ inlineData (js "image/jpeg") base64Image;
               text_part food_prompt ];
     req_config :=
       Some {| responseMimeType := js "application/json";
               responseSchema := foodDetectionSchema |} |}.

Definition estimateNutritionFromImage (base64Image : jsstring)
  : Prog JsValue :=
  try_catch
    (response <- generateContent (food_request base64Image) ;;
     jsonString <- String_trim (text response) ;;
     result <- lift (JSON.parse jsonString) ;;
     result_error <- lift (get result (js "error")) ;;
     throw_if (truthy result_error) (Error result_error) ;;
     missing <- or_else
                  (name <- lift (get result (js "name")) ;;
                   Ret (negb (truthy name)))
                  (nutrition <- lift (get result (js "nutrition")) ;;
                   Ret (negb (truthy nutrition))) ;;
     throw_if missing (Error (JStr COULD_NOT_IDENTIFY)) ;;
     Ret result)%prog
    (fun error =>
       console_error API_LABEL error ;;
       Throw (Error (JStr FAILED_TO_ANALYZE)))%prog.

Definition tip_prompt : jsstring :=
  Eval vm_compute in
  js "Generate a single, concise, and encouraging nutritional tip for the day, relevant to Argentine culture. Keep it under 25 words. For example: 'Enjoy a glass of Malbec, but in moderation!' or 'A walk after asado aids digestion.'".

Definition TIP_FALLBACK : jsstring :=
  Eval vm_compute in
  js "Stay hydrated by drinking plenty of water throughout the day!".

Definition tip_request : Request :=
  {| req_model := model; req_contents := plain tip_prompt;
     req_config := None |}.

(** The value returned is that of [response.text], [None] for
    [undefined]. *)
Definition getDailyTip : Prog (option jsstring) :=
  try_catch
    (response <- generateContent tip_request ;;
     Ret (text response))%prog
    (fun error =>
       console_error TIP_LABEL error ;;
       Ret (Some TIP_FALLBACK))%prog.

(** The spec's names for the two operations. *)
Definition classifyFood := estimateNutritionFromImage.

(* ================================================================= *)
(** ** How a call of [estimateNutritionFromImage] can go *)

(** The property [k] of [v] reads as a falsy, respectively truthy, value. *)
Definition falsy_field (v : JsValue) (k : jsstring) : Prop :=
  exists x, get v k = inr x /\ truthy x = false.

Definition truthy_field (v : JsValue) (k : jsstring) : Prop :=
  exists x, get v k = inr x /\ truthy x = true.

(** The property is absent: the read gives [undefined]. *)
Definition missing_field (v : JsValue) (k : jsstring) : Prop :=
  get v k = inr JUndefined.

(** The response text parsed to [v]. *)
Definition parsed_as (o : Outcome) (v : JsValue) : Prop :=
  exists t, o = Resolves {| text := Some t |} /\ JSON.parse (trim t) = inr v.

(** [Failure o cause]: with the remote call settled as [o], the [try] block
    of [estimateNutritionFromImage] throws [cause]. *)
Inductive Failure (o : Outcome) : exn -> Prop :=
| Failure_transport reason :
    o = Rejects reason -> Failure o reason
| Failure_no_text :
    o = Resolves {| text := None |} -> Failure o TypeError
| Failure_syntax t e :
    o = Resolves {| text := Some t |} -> JSON.parse (trim t) = inl e ->
    Failure o e
| Failure_read v e :
    parsed_as o v -> get v (js "error") = inl e -> Failure o e
| Failure_error v x :
    parsed_as o v -> get v (js "error") = inr x -> truthy x = true ->
    Failure o (Error x)
| Failure_missing v :
    parsed_as o v -> falsy_field v (js "error") ->
    falsy_field v (js "name") \/ falsy_field v (js "nutrition") ->
    Failure o (Error (JStr COULD_NOT_IDENTIFY)).



(** *** What the spec asks of a result *)

(** A [name] that is there and not empty. *)
Definition nonempty_name (v : JsValue) : Prop :=
  exists x, get v (js "name") = inr x
            /\ x <> JUndefined /\ x <> JNull /\ x <> JStr [].

(** A [nutrition] that is present and not [null]. *)
Definition populated_nutrition (v : JsValue) : Prop :=
  exists x, get v (js "nutrition") = inr x /\ x <> JUndefined /\ x <> JNull.

(** An own property of an object, [None] when there is none. *)
Definition own_field (v : JsValue) (k : jsstring) : option JsValue :=
  match v with
  | JObj props => lookup k props
  | _ => None
  end.





(** *** Sample exchanges *)

Module Samples.

Definition quoted (s : jsstring) : jsstring := dq ++ s ++ dq.

(** A remote that answers every request with the text [t]. *)
Definition answers (t : jsstring) : Remote :=
  fun _ _ => Resolves {| text := Some t |}.

(** A remote that cannot be reached. *)
Definition offline : Remote :=
  fun _ _ => Rejects (ApiError 503 (js "Service Unavailable")).

(** A complete answer, with white space around it. *)
Definition asado : jsstring :=
  js " {" ++ quoted (js "name") ++ js ":" ++ quoted (js "Asado") ++ js ","
  ++ quoted (js "portionSize") ++ js ":" ++ quoted (js "1 plate") ++ js ","
  ++ quoted (js "nutrition") ++ js ":{"
  ++ quoted (js "calories") ++ js ":650,"
  ++ quoted (js "protein") ++ js ":48.5,"
  ++ quoted (js "carbs") ++ js ":0,"
  ++ quoted (js "fat") ++ js ":50}}" ++ nl.

(** The model saw no food. *)
Definition no_food : jsstring :=
  js "{" ++ quoted (js "error") ++ js ":"
  ++ quoted (js "No food detected in the image.") ++ js "}".

(** An answer without [name]. *)
Definition no_name : jsstring :=
  js "{" ++ quoted (js "portionSize") ++ js ":" ++ quoted (js "1 plate")
  ++ js "," ++ quoted (js "nutrition") ++ js ":{"
  ++ quoted (js "calories") ++ js ":650,"
  ++ quoted (js "protein") ++ js ":48.5,"
  ++ quoted (js "carbs") ++ js ":0,"
  ++ quoted (js "fat") ++ js ":50}}".

(** An empty [name] and a [null] nutrition. *)
Definition hollow : jsstring :=
  js "{" ++ quoted (js "name") ++ js ":" ++ quoted [] ++ js ","
  ++ quoted (js "nutrition") ++ js ":null}".

(** No [portionSize], negative calories, and the other three missing. *)
Definition bare : jsstring :=
  js "{" ++ quoted (js "name") ++ js ":" ++ quoted (js "Asado") ++ js ","
  ++ quoted (js "nutrition") ++ js ":{"
  ++ quoted (js "calories") ++ js ":-120}}".

(** A field the schema does not know. *)
Definition extra : jsstring :=
  js "{" ++ quoted (js "name") ++ js ":" ++ quoted (js "Mate") ++ js ","
  ++ quoted (js "nutrition") ++ js ":{},"
  ++ quoted (js "confidence") ++ js ":0.9}".

(** Not JSON. *)
Definition garbled : jsstring := js "{name: Asado".

(** A tip, with the white space the model put around it. *)
Definition tip : jsstring := js "  A walk after asado aids digestion. " ++ nl.

End Samples.

(** *** Further vocabulary *)

(** A text made of nothing but the code units [trim] strips. *)
Definition all_whitespace (s : jsstring) : bool := forallb is_js_whitespace s.

(** What a run wrote to the diagnostic channel, in order. *)
Definition logged (trace : list Event) : list (jsstring * exn) :=
  flat_map (fun ev => match ev with
                      | Requested _ => []
                      | Logged label error => [(label, error)]
                      end) trace.

Module Padding.

(** A byte order mark before the answer and a no-break space after it:
    neither is white space for [JSON.parse], both are for [trim]. *)
Definition bom : jsstring := [65279%N].
Definition nbsp : jsstring := [160%N].
Definition padded_asado : jsstring := bom ++ Samples.asado ++ nbsp.

(** A remote that answers with blanks only. *)
Definition blank : jsstring := js "  " ++ nl ++ nbsp.

End Padding.

(* ================================================================= *)
(** * Properties *)

(* ================================================================= *)
(** ** Sample runs *)

Example asado_is_returned :
  run (Samples.answers Samples.asado) 0 (estimateNutritionFromImage [])
  = ([Requested (food_request [])],
     Fulfilled
       (JObj [(js "name", JStr (js "Asado"));
              (js "portionSize", JStr (js "1 plate"));
              (js "nutrition",
               JObj [(js "calories", JNum (mkNum false 650 0));
                     (js "protein", JNum (mkNum false 485 (-1)));
                     (js "carbs", JNum (mkNum false 0 0));
                     (js "fat", JNum (mkNum false 50 0))])])).
Proof. vm_compute. reflexivity. Qed.

Example garbled_is_a_syntax_error :
  run (Samples.answers Samples.garbled) 0 (estimateNutritionFromImage [])
  = ([Requested (food_request []); Logged API_LABEL SyntaxError],
     RejectedWith (Error (JStr FAILED_TO_ANALYZE))).
Proof. vm_compute. reflexivity. Qed.

Example null_is_a_type_error :
  run (Samples.answers (js "null")) 0 (estimateNutritionFromImage [])
  = ([Requested (food_request []); Logged API_LABEL TypeError],
     RejectedWith (Error (JStr FAILED_TO_ANALYZE))).
Proof. vm_compute. reflexivity. Qed.

Example offline_tip :
  run Samples.offline 0 getDailyTip
  = ([Requested tip_request;
      Logged TIP_LABEL (ApiError 503 (js "Service Unavailable"))],
     Fulfilled (Some TIP_FALLBACK)).
Proof. vm_compute. reflexivity. Qed.

(** The last key of a repeated name wins, a tiny number is zero, hence
    falsy, and an escape is one code unit. *)
Example parse_details :
  JSON.parse (js "{" ++ Samples.quoted (js "a") ++ js ":1,"
              ++ Samples.quoted (js "a") ++ js ":[true, null, 2.50e-1]}")
  = inr (JObj [(js "a", JArr [JBool true; JNull;
                              JNum (mkNum false 250 (-3))])])
  /\ truthy (JNum (mkNum false 1 (-400))) = false
  /\ truthy (JNum (mkNum false 5 (-324))) = true
  /\ JSON.parse (Samples.quoted (js "é\n")) = inr (JStr [233%N; 10%N]).
Proof. repeat split; vm_compute; reflexivity. Qed.

(* ================================================================= *)
(** ** [JSON.parse] never runs out of fuel *)

Module JSONFacts.

Import JSON.

Lemma skip_ws_length s : List.length (skip_ws s) <= List.length s.
Proof.
  induction s as [|c r IH]; cbn; [lia|].
  destruct (is_ws c); cbn; lia.
Qed.

Lemma string_body_length s :
  forall acc k r, string_body s acc = Some (k, r) ->
                  List.length r < List.length s.
Proof.
  induction s as [s IH] using (induction_ltof1 _ (@List.length N)).
  unfold ltof in IH. intros acc k r H.
  destruct s as [|c s1]; cbn in H; [discriminate|].
  destruct (c =? 34)%N.
  { injection H as _ <-. cbn. lia. }
  destruct (c =? 92)%N.
  - destruct s1 as [|e s2]; [discriminate|].
    destruct (e =? 117)%N.
    + destruct s2 as [|h1 [|h2 [|h3 [|h4 s3]]]]; try discriminate.
      destruct (hex4 h1 h2 h3 h4); [|discriminate].
      apply IH in H; cbn in *; lia.
    + destruct (escape e); [|discriminate].
      apply IH in H; cbn in *; lia.
  - destruct (c <? 32)%N; [discriminate|].
    apply IH in H; cbn in *; lia.
Qed.

Lemma digits_length s :
  forall acc count m k r, digits s acc count = (m, k, r) ->
                          List.length r <= List.length s.
Proof.
  induction s as [|c s IH]; cbn; intros acc count m k r H.
  - injection H as _ _ <-. cbn. lia.
  - destruct (is_digit c).
    + apply IH in H. lia.
    + injection H as _ _ <-. cbn. lia.
Qed.

Lemma keyword_length kw :
  forall s r, keyword kw s = Some r -> List.length r <= List.length s.
Proof.
  induction kw as [|k kw IH]; cbn; intros s r H.
  - injection H as <-. lia.
  - destruct s as [|c s]; [discriminate|].
    destruct (k =? c)%N; [|discriminate].
    apply IH in H. cbn. lia.
Qed.

Lemma sign_length s neg r :
  sign s = (neg, r) -> List.length r <= List.length s.
Proof.
  destruct s as [|c s]; cbn; [intros [= _ <-]; cbn; lia|].
  destruct (c =? 45)%N; intros [= _ <-]; cbn; lia.
Qed.

Lemma int_part_length s m r :
  int_part s = Some (m, r) -> List.length r < List.length s.
Proof.
  destruct s as [|c s]; cbn; [discriminate|].
  destruct (c =? 48)%N; [intros [= _ <-]; lia|].
  destruct (is_digit c); [|discriminate].
  destruct (digits s (c - 48) 1) as [[m' k] r'] eqn:Hd.
  intros [= _ <-]. apply digits_length in Hd. lia.
Qed.

Lemma frac_part_length m s m' scale r :
  frac_part m s = Some (m', scale, r) -> List.length r <= List.length s.
Proof.
  destruct s as [|c s]; cbn; [intros [= _ _ <-]; cbn; lia|].
  destruct (c =? 46)%N; [|intros [= _ _ <-]; cbn; lia].
  destruct (digits s m 0) as [[m0 k] r'] eqn:Hd.
  destruct k; [discriminate|].
  intros [= _ _ <-]. apply digits_length in Hd. lia.
Qed.

Lemma exp_sign_length s neg r :
  exp_sign s = (neg, r) -> List.length r <= List.length s.
Proof.
  destruct s as [|c s]; cbn; [intros [= _ <-]; cbn; lia|].
  destruct (c =? 45)%N; [intros [= _ <-]; cbn; lia|].
  destruct (c =? 43)%N; intros [= _ <-]; cbn; lia.
Qed.

Lemma exp_part_length s e r :
  exp_part s = Some (e, r) -> List.length r <= List.length s.
Proof.
  destruct s as [|c s]; cbn; [intros [= _ <-]; cbn; lia|].
  destruct ((c =? 101) || (c =? 69))%N; [|intros [= _ <-]; cbn; lia].
  destruct (exp_sign s) as [eneg r0] eqn:Hs.
  destruct (digits r0 0 0) as [[e0 k] r1] eqn:Hd.
  destruct k; [discriminate|].
  intros [= _ <-]. apply exp_sign_length in Hs. apply digits_length in Hd.
  lia.
Qed.

Lemma number_length s n r :
  number s = Some (n, r) -> List.length r < List.length s.
Proof.
  unfold number.
  destruct (sign s) as [neg s1] eqn:H1.
  destruct (int_part s1) as [[m s2]|] eqn:H2; [|discriminate].
  destruct (frac_part m s2) as [[[m' scale] s3]|] eqn:H3; [|discriminate].
  destruct (exp_part s3) as [[e s4]|] eqn:H4; [|discriminate].
  intros [= _ <-].
  apply sign_length in H1. apply int_part_length in H2.
  apply frac_part_length in H3. apply exp_part_length in H4. lia.
Qed.

(** Every equation of the context that relates a text to what a parsing
    step left of it, turned into the fact about their lengths. *)
Ltac length_facts :=
  repeat match goal with
    | H : skip_ws ?s = ?r |- _ =>
        let F := fresh "F" in
        assert (F : List.length r <= List.length s)
          by (rewrite <- H; apply skip_ws_length);
        clear H
    | H : string_body _ _ = Some _ |- _ => apply string_body_length in H
    | H : keyword _ _ = Some _ |- _ => apply keyword_length in H
    | H : number _ = Some _ |- _ => apply number_length in H
    end;
  cbn [List.length] in *.

(** A successful step leaves strictly less text. *)
Lemma parse_shrinks n :
  (forall s v r, value n s = Some (v, r) -> List.length r < List.length s)
  /\ (forall s acc v r, members n s acc = Some (v, r) ->
                        List.length r < List.length s)
  /\ (forall s acc v r, elements n s acc = Some (v, r) ->
                        List.length r < List.length s).
Proof.
  induction n as [|n (IHv & IHm & IHe)]; [repeat split; discriminate|].
  split; [|split].
  - intros s v r H. cbn [value] in H.
    destruct (skip_ws s) as [|c s1] eqn:H0; [discriminate|].
    destruct (c =? 123)%N.
    { destruct (skip_ws s1) as [|c' s2] eqn:H1; [discriminate|].
      destruct (c' =? 125)%N.
      - injection H as _ <-. length_facts. lia.
      - apply IHm in H. length_facts. lia. }
    destruct (c =? 91)%N.
    { destruct (skip_ws s1) as [|c' s2] eqn:H1; [discriminate|].
      destruct (c' =? 93)%N.
      - injection H as _ <-. length_facts. lia.
      - apply IHe in H. length_facts. lia. }
    destruct (c =? 34)%N.
    { destruct (string_body s1 []) as [[str s2]|] eqn:H1; [|discriminate].
      injection H as _ <-. length_facts. lia. }
    destruct (c =? 116)%N.
    { destruct (keyword _ s1) as [s2|] eqn:H1; [|discriminate].
      injection H as _ <-. length_facts. lia. }
    destruct (c =? 102)%N.
    { destruct (keyword _ s1) as [s2|] eqn:H1; [|discriminate].
      injection H as _ <-. length_facts. lia. }
    destruct (c =? 110)%N.
    { destruct (keyword _ s1) as [s2|] eqn:H1; [|discriminate].
      injection H as _ <-. length_facts. lia. }
    destruct (number (c :: s1)) as [[x s2]|] eqn:H1; [|discriminate].
    injection H as _ <-. length_facts. lia.
  - intros s acc v r H. cbn [members] in H.
    destruct (skip_ws s) as [|c s1] eqn:H0; [discriminate|].
    destruct (c =? 34)%N; [|discriminate].
    destruct (string_body s1 []) as [[key s2]|] eqn:H1; [|discriminate].
    destruct (skip_ws s2) as [|c1 s3] eqn:H2; [discriminate|].
    destruct (c1 =? 58)%N; [|discriminate].
    destruct (value n s3) as [[w s4]|] eqn:H3; [|discriminate].
    destruct (skip_ws s4) as [|c3 s5] eqn:H4; [discriminate|].
    apply IHv in H3.
    destruct (c3 =? 44)%N.
    + apply IHm in H. length_facts. lia.
    + destruct (c3 =? 125)%N; [|discriminate].
      injection H as _ <-. length_facts. lia.
  - intros s acc v r H. cbn [elements] in H.
    destruct (value n s) as [[w s1]|] eqn:H0; [|discriminate].
    destruct (skip_ws s1) as [|c s2] eqn:H1; [discriminate|].
    apply IHv in H0.
    destruct (c =? 44)%N.
    + apply IHe in H. length_facts. lia.
    + destruct (c =? 93)%N; [|discriminate].
      injection H as _ <-. length_facts. lia.
Qed.

(** Fuel beyond what a text needs changes nothing. The bounds: a value
    of length [l] needs [2 l + 1], the members of an object and the
    elements of an array [2 l + 2]. *)
Lemma fuel_stable n :
  forall m, n <= m ->
  (forall s, 2 * List.length s + 1 <= n -> value m s = value n s)
  /\ (forall s acc, 2 * List.length s + 2 <= n ->
                    members m s acc = members n s acc)
  /\ (forall s acc, 2 * List.length s + 2 <= n ->
                    elements m s acc = elements n s acc).
Proof.
  induction n as [|n IH]; intros m Hm; [repeat split; intros; lia|].
  destruct m as [|m]; [lia|].
  destruct (IH m ltac:(lia)) as (IHv & IHm & IHe).
  destruct (parse_shrinks n) as (Shrink & _ & _).
  split; [|split].
  - intros s Hs. cbn [value].
    destruct (skip_ws s) as [|c s1] eqn:H0; [reflexivity|].
    destruct (c =? 123)%N.
    { destruct (skip_ws s1) as [|c' s2] eqn:H1; [reflexivity|].
      destruct (c' =? 125)%N; [reflexivity|].
      apply IHm. length_facts. lia. }
    destruct (c =? 91)%N; [|reflexivity].
    destruct (skip_ws s1) as [|c' s2] eqn:H1; [reflexivity|].
    destruct (c' =? 93)%N; [reflexivity|].
    apply IHe. length_facts. lia.
  - intros s acc Hs. cbn [members].
    destruct (skip_ws s) as [|c s1] eqn:H0; [reflexivity|].
    destruct (c =? 34)%N; [|reflexivity].
    destruct (string_body s1 []) as [[key s2]|] eqn:H1; [|reflexivity].
    destruct (skip_ws s2) as [|c1 s3] eqn:H2; [reflexivity|].
    destruct (c1 =? 58)%N; [|reflexivity].
    rewrite (IHv s3) by (length_facts; lia).
    destruct (value n s3) as [[w s4]|] eqn:H3; [|reflexivity].
    destruct (skip_ws s4) as [|c3 s5] eqn:H4; [reflexivity|].
    destruct (c3 =? 44)%N; [|reflexivity].
    apply Shrink in H3. apply IHm. length_facts. lia.
  - intros s acc Hs. cbn [elements].
    rewrite (IHv s) by lia.
    destruct (value n s) as [[w s1]|] eqn:H0; [|reflexivity].
    destruct (skip_ws s1) as [|c s2] eqn:H1; [reflexivity|].
    destruct (c =? 44)%N; [|reflexivity].
    apply Shrink in H0. apply IHe. length_facts. lia.
Qed.

(** [JSON.parse] is the parse with any larger amount of fuel: the fuel it
    gives itself is never what makes it fail. *)
Lemma parse_fuel_enough (text : jsstring) (fuel : nat) :
  2 * List.length text + 2 <= fuel ->
  value fuel text = value (2 * List.length text + 2) text.
Proof.
  intros H.
  destruct (@fuel_stable (2 * List.length text + 2) fuel H) as (Hv & _).
  apply Hv. lia.
Qed.

End JSONFacts.

(** A value that answers one property read answers them all. *)
Lemma get_defined v k x :
  get v k = inr x -> forall k', exists y, get v k' = inr y.
Proof.
  destruct v; cbn; try discriminate; intros _ k'; eauto.
  destruct (lookup k' props); eauto.
Qed.

(** Every run sends the request once and then either returns the parsed
    value, which passed the two checks, or logs the cause and throws the
    one generic error. *)
Lemma run_estimate (remote : Remote) (n : nat) (img : jsstring) :
  let o := remote n (food_request img) in
  (exists v,
      parsed_as o v /\ falsy_field v (js "error") /\
      truthy_field v (js "name") /\ truthy_field v (js "nutrition") /\
      run remote n (estimateNutritionFromImage img)
      = ([Requested (food_request img)], Fulfilled v))
  \/
  (exists cause,
      Failure o cause /\
      run remote n (estimateNutritionFromImage img)
      = ([Requested (food_request img); Logged API_LABEL cause],
         RejectedWith (Error (JStr FAILED_TO_ANALYZE)))).
Proof.
  intros o. subst o.
  unfold estimateNutritionFromImage, generateContent.
  cbn [try_catch bind run].
  destruct (remote n (food_request img)) as [[[t|]]|reason] eqn:Ho.
  2:{ right. exists TypeError. split; [now apply Failure_no_text|reflexivity]. }
  2:{ right. exists reason. split; [now apply Failure_transport|reflexivity]. }
  cbn [text String_trim try_catch bind run].
  destruct (JSON.parse (trim t)) as [e|v] eqn:Hp.
  { right. exists e. split; [now apply Failure_syntax with t|reflexivity]. }
  assert (Hv : parsed_as (Resolves {| text := Some t |}) v) by (exists t; auto).
  cbn [lift try_catch bind run].
  destruct (get v (js "error")) as [e|x] eqn:He.
  { right. exists e. split; [now apply Failure_read with v|reflexivity]. }
  cbn [lift try_catch bind run throw_if].
  destruct (truthy x) eqn:Hx.
  { right. exists (Error x). split; [now apply Failure_error with v|reflexivity]. }
  assert (Hfe : falsy_field v (js "error")) by (exists x; auto).
  destruct (get_defined _ _ He (js "name")) as [nm Hn].
  destruct (get_defined _ _ He (js "nutrition")) as [nu Hu].
  unfold or_else. rewrite Hn, Hu.
  cbn [lift try_catch bind run throw_if].
  destruct (truthy nm) eqn:Hnm; cbn [negb lift try_catch bind run throw_if].
  - destruct (truthy nu) eqn:Hnu; cbn [negb lift try_catch bind run throw_if].
    + left. exists v. repeat split; auto; [exists nm|exists nu]; auto.
    + right. exists (Error (JStr COULD_NOT_IDENTIFY)). split; [|reflexivity].
      apply Failure_missing with v; auto. right. exists nu; auto.
  - right. exists (Error (JStr COULD_NOT_IDENTIFY)). split; [|reflexivity].
    apply Failure_missing with v; auto. left. exists nm; auto.
Qed.

Lemma parsed_as_fun o v v' : parsed_as o v -> parsed_as o v' -> v = v'.
Proof.
  intros (t & Ho & Hp) (t' & Ho' & Hp').
  rewrite Ho in Ho'. injection Ho' as <-. congruence.
Qed.

Lemma falsy_not_truthy v k : falsy_field v k -> truthy_field v k -> False.
Proof.
  intros (x & Hx & Hf) (y & Hy & Ht). congruence.
Qed.

Lemma missing_is_falsy v k : missing_field v k -> falsy_field v k.
Proof.
  intros H. exists JUndefined. split; [exact H | reflexivity].
Qed.

(** The cases of [run_estimate] as a tactic: [Hrun] is the run's value, and
    in the successful case [v] is the parsed value with its facts. *)
Ltac estimate_cases remote n img v Hrun :=
  let c := fresh "cause" in
  let Hp := fresh "Hparsed" in
  let He := fresh "Herror" in
  let Hn := fresh "Hname" in
  let Hu := fresh "Hnutrition" in
  let Hf := fresh "Hfailure" in
  destruct (run_estimate remote n img)
    as [(v & Hp & He & Hn & Hu & Hrun) | (c & Hf & Hrun)].

(** Both runs of [getDailyTip]. *)
Lemma run_tip (remote : Remote) (n : nat) :
  run remote n getDailyTip
  = match remote n tip_request with
    | Resolves response => ([Requested tip_request], Fulfilled (text response))
    | Rejects reason =>
        ([Requested tip_request; Logged TIP_LABEL reason],
         Fulfilled (Some TIP_FALLBACK))
    end.
Proof.
  unfold getDailyTip, generateContent. cbn [try_catch bind run].
  destruct (remote n tip_request); reflexivity.
Qed.

(** A successful run is the left case of [run_estimate]. *)
Lemma fulfilled_inv remote n img v :
  snd (run remote n (estimateNutritionFromImage img)) = Fulfilled v ->
  parsed_as (remote n (food_request img)) v
  /\ falsy_field v (js "error")
  /\ truthy_field v (js "name") /\ truthy_field v (js "nutrition").
Proof.
  intros H. estimate_cases remote n img v' Hrun; rewrite Hrun in H; cbn in H.
  - injection H as <-. auto.
  - discriminate.
Qed.

(** Whatever is not the left case ends in the generic error. *)
Lemma rejected_unless remote n img :
  (forall v, parsed_as (remote n (food_request img)) v ->
             falsy_field v (js "error") -> truthy_field v (js "name") ->
             truthy_field v (js "nutrition") -> False) ->
  snd (run remote n (estimateNutritionFromImage img))
  = RejectedWith (Error (JStr FAILED_TO_ANALYZE)).
Proof.
  intros H. estimate_cases remote n img v Hrun; rewrite Hrun.
  - exfalso. eauto.
  - reflexivity.
Qed.

(** C1. When the parsed response has a non-empty (truthy) [error] field,
    [classifyFood] fails: the caller receives the generic error that wraps
    the failure, and the field's own message is what the [try] block threw
    and the diagnostic channel logged. *)
Theorem error_field_fails (remote : Remote) (n : nat) (img : jsstring)
  (v x : JsValue) :
  parsed_as (remote n (food_request img)) v ->
  get v (js "error") = inr x ->
  truthy x = true ->
  run remote n (classifyFood img)
  = ([Requested (food_request img); Logged API_LABEL (Error x)],
     RejectedWith (Error (JStr FAILED_TO_ANALYZE))).
Proof.
  intros (t & Ho & Hp) He Hx.
  unfold classifyFood, estimateNutritionFromImage, generateContent.
  cbn [try_catch bind run]. rewrite Ho.
  cbn [text String_trim try_catch bind run]. rewrite Hp.
  cbn [lift try_catch bind run]. rewrite He.
  cbn [lift try_catch bind run throw_if]. rewrite Hx.
  reflexivity.
Qed.

Lemma error_field_fails_witness :
  run (Samples.answers Samples.no_food) 0 (classifyFood (js "/9j/4AAQSkZJRg=="))
  = ([Requested (food_request (js "/9j/4AAQSkZJRg=="));
      Logged API_LABEL (Error (JStr (js "No food detected in the image.")))],
     RejectedWith
       (Error (JStr (js "Failed to analyze image. The food might not be recognized or there was a network issue.")))).
Proof.
  apply (@error_field_fails (Samples.answers Samples.no_food) 0
           (js "/9j/4AAQSkZJRg==")
           (JObj [(js "error", JStr (js "No food detected in the image."))])
           (JStr (js "No food detected in the image."))).
  - exists Samples.no_food. split; vm_compute; reflexivity.
  - vm_compute; reflexivity.
  - vm_compute; reflexivity.
Defined.

(** C3. When the remote call fails at the transport level,
    [classifyFood] fails with the generic "Failed to analyze image" error,
    whereas [getDailyTip] returns the literal fallback tip; and
    [getDailyTip] returns a value however the remote call settles, so no
    error ever reaches its caller. *)
Theorem transport_failure (remote : Remote) (n : nat) (img : jsstring)
  (reason : exn) :
  (remote n (food_request img) = Rejects reason ->
   snd (run remote n (classifyFood img))
   = RejectedWith
       (Error (JStr (js "Failed to analyze image. The food might not be recognized or there was a network issue."))))
  /\ (remote n tip_request = Rejects reason ->
      snd (run remote n getDailyTip)
      = Fulfilled
          (Some (js "Stay hydrated by drinking plenty of water throughout the day!")))
  /\ (exists tip, snd (run remote n getDailyTip) = Fulfilled tip).
Proof.
  split; [|split].
  - intros Ho. unfold classifyFood.
    estimate_cases remote n img v Hrun; rewrite Hrun.
    + destruct Hparsed as (t & Ht & _). congruence.
    + reflexivity.
  - intros Ho. rewrite run_tip, Ho. reflexivity.
  - rewrite run_tip. destruct (remote n tip_request); cbn; eauto.
Qed.

Lemma transport_failure_witness :
  snd (run Samples.offline 0 (classifyFood (js "/9j/4AAQSkZJRg==")))
  = RejectedWith (Error (JStr FAILED_TO_ANALYZE))
  /\ snd (run Samples.offline 0 getDailyTip) = Fulfilled (Some TIP_FALLBACK).
Proof.
  destruct (transport_failure Samples.offline 0 (js "/9j/4AAQSkZJRg==")
              (ApiError 503 (js "Service Unavailable"))) as (Hfood & Htip & _).
  split.
  - apply Hfood. reflexivity.
  - apply Htip. reflexivity.
Defined.

(** C6. Every failure of [classifyFood] reaches the caller as the one
    message "Failed to analyze image. The food might not be recognized or
    there was a network issue.": a transport error, a JSON parse failure, a
    truthy [error] field and a missing [name] or [nutrition] all end there,
    and no rejection carries anything else, neither the response's [error]
    text nor "Could not identify the food. Please try another photo.". *)
Theorem every_failure_is_generic (remote : Remote) (n : nat) (img : jsstring) :
  let o := remote n (food_request img) in
  let res := snd (run remote n (classifyFood img)) in
  let generic :=
    Error (JStr (js "Failed to analyze image. The food might not be recognized or there was a network issue.")) in
  (forall reason, o = Rejects reason -> res = RejectedWith generic)
  /\ (forall t e, o = Resolves {| text := Some t |} ->
                  JSON.parse (trim t) = inl e -> res = RejectedWith generic)
  /\ (forall v x, parsed_as o v -> get v (js "error") = inr x ->
                  truthy x = true -> res = RejectedWith generic)
  /\ (forall v, parsed_as o v ->
                missing_field v (js "name") \/ missing_field v (js "nutrition") ->
                res = RejectedWith generic)
  /\ (forall e, res = RejectedWith e ->
                e = generic
                /\ error_message e <> Some COULD_NOT_IDENTIFY).
Proof.
  intros o res generic. subst o res generic. unfold classifyFood.
  change (Error (JStr _)) with (Error (JStr FAILED_TO_ANALYZE)).
  repeat split.
  - intros reason Ho. apply rejected_unless.
    intros v (t & Ht & _). congruence.
  - intros t e Ho Hp. apply rejected_unless.
    intros v (t' & Ht & Hp'). rewrite Ho in Ht. injection Ht as <-. congruence.
  - intros v x Hv He Hx. apply rejected_unless.
    intros v' Hv' (y & Hy & Hfalse) _ _.
    rewrite (parsed_as_fun Hv' Hv) in Hy. congruence.
  - intros v Hv Hmiss. apply rejected_unless.
    intros v' Hv' _ Hn Hu. rewrite (parsed_as_fun Hv' Hv) in Hn, Hu.
    destruct Hmiss as [Hm | Hm]; apply missing_is_falsy in Hm;
      eauto using falsy_not_truthy.
  - estimate_cases remote n img v Hrun; rewrite Hrun in H; cbn in H.
    + discriminate.
    + congruence.
  - estimate_cases remote n img v Hrun; rewrite Hrun in H; cbn in H.
    + discriminate.
    + injection H as <-. cbn. intros [=].
Qed.

Lemma every_failure_is_generic_witness :
  snd (run Samples.offline 0 (classifyFood []))
  = RejectedWith (Error (JStr FAILED_TO_ANALYZE))
  /\ snd (run (Samples.answers Samples.garbled) 0 (classifyFood []))
     = RejectedWith (Error (JStr FAILED_TO_ANALYZE))
  /\ snd (run (Samples.answers Samples.no_food) 0 (classifyFood []))
     = RejectedWith (Error (JStr FAILED_TO_ANALYZE))
  /\ snd (run (Samples.answers Samples.no_name) 0 (classifyFood []))
     = RejectedWith (Error (JStr FAILED_TO_ANALYZE))
  /\ error_message (Error (JStr FAILED_TO_ANALYZE)) <> Some COULD_NOT_IDENTIFY.
Proof.
  destruct (every_failure_is_generic Samples.offline 0 [])
    as (Hoff & _ & _ & _ & Honly).
  destruct (every_failure_is_generic (Samples.answers Samples.garbled) 0 [])
    as (_ & Hsyntax & _).
  destruct (every_failure_is_generic (Samples.answers Samples.no_food) 0 [])
    as (_ & _ & Herr & _).
  destruct (every_failure_is_generic (Samples.answers Samples.no_name) 0 [])
    as (_ & _ & _ & Hmiss & _).
  split; [|split; [|split; [|split]]].
  - apply Hoff with (reason := ApiError 503 (js "Service Unavailable")).
    reflexivity.
  - apply Hsyntax with (t := Samples.garbled) (e := SyntaxError).
    + reflexivity.
    + vm_compute. reflexivity.
  - apply Herr
      with (v := JObj [(js "error", JStr (js "No food detected in the image."))])
           (x := JStr (js "No food detected in the image.")).
    + exists Samples.no_food. split; vm_compute; reflexivity.
    + vm_compute. reflexivity.
    + reflexivity.
  - destruct (JSON.parse (trim Samples.no_name)) as [e|v] eqn:Hp;
      [vm_compute in Hp; discriminate|].
    apply Hmiss with (v := v).
    + exists Samples.no_name. split; [reflexivity | exact Hp].
    + left. vm_compute in Hp. injection Hp as <-. vm_compute. reflexivity.
  - apply (Honly (Error (JStr FAILED_TO_ANALYZE))).
    apply Hoff with (reason := ApiError 503 (js "Service Unavailable")).
    reflexivity.
Defined.

(** C9. Each call of [classifyFood] and of [getDailyTip] sends exactly one
    request to the remote endpoint, whatever the endpoint answers and
    whether the call then succeeds or fails: the requests of a run are the
    single request the operation builds, never a second one. *)
Theorem one_request_per_call (remote : Remote) (n : nat) (img : jsstring) :
  requests (fst (run remote n (classifyFood img))) = [food_request img]
  /\ requests (fst (run remote n getDailyTip)) = [tip_request].
Proof.
  split.
  - unfold classifyFood.
    estimate_cases remote n img v Hrun; rewrite Hrun; reflexivity.
  - rewrite run_tip. destruct (remote n tip_request); reflexivity.
Qed.

(** C4. A call of [classifyFood] either returns a result whose [name] is
    there and not empty and whose [nutrition] is present and not [null], or
    it fails; and whenever the parsed response lacks one of the two, the
    call fails instead of returning. *)
Theorem result_invariant (remote : Remote) (n : nat) (img : jsstring) :
  let res := snd (run remote n (classifyFood img)) in
  ((exists v, res = Fulfilled v /\ nonempty_name v /\ populated_nutrition v)
   \/ (exists e, res = RejectedWith e))
  /\ (forall v, parsed_as (remote n (food_request img)) v ->
                ~ (nonempty_name v /\ populated_nutrition v) ->
                exists e, res = RejectedWith e).
Proof.
  assert (Hinv : forall v, truthy_field v (js "name") ->
                           truthy_field v (js "nutrition") ->
                           nonempty_name v /\ populated_nutrition v).
  { intros v (nm & Hn & Hnm) (nu & Hu & Hnu). split.
    - exists nm. repeat split; auto; intros ->; discriminate.
    - exists nu. repeat split; auto; intros ->; discriminate. }
  intros res. subst res. unfold classifyFood.
  estimate_cases remote n img v Hrun; rewrite Hrun; cbn [snd]; split.
  - left. exists v. split; [reflexivity | auto].
  - intros v' Hv' Hnot. exfalso. apply Hnot.
    rewrite (parsed_as_fun Hv' Hparsed). auto.
  - right. eauto.
  - intros; eauto.
Qed.

Lemma result_invariant_witness :
  exists e, snd (run (Samples.answers Samples.hollow) 0 (classifyFood []))
            = RejectedWith e.
Proof.
  apply (proj2 (result_invariant (Samples.answers Samples.hollow) 0 []))
    with (v := JObj [(js "name", JStr []); (js "nutrition", JNull)]).
  - exists Samples.hollow. split; vm_compute; reflexivity.
  - intros [(x & Hx & _ & _ & Hne) _]. vm_compute in Hx.
    injection Hx as <-. apply Hne. reflexivity.
Defined.

(** C10. What [classifyFood] returns is the very value [JSON.parse] gave
    for the trimmed response text, and what [getDailyTip] returns when the
    remote call resolves is the value of [response.text], untouched; a
    field outside the schema comes back with the rest, and a tip keeps its
    surrounding white space. *)
Theorem results_are_verbatim (remote : Remote) (n : nat) (img : jsstring) :
  (forall v, snd (run remote n (classifyFood img)) = Fulfilled v ->
             exists t, remote n (food_request img)
                       = Resolves {| text := Some t |}
                       /\ JSON.parse (trim t) = inr v)
  /\ (forall response, remote n tip_request = Resolves response ->
                       snd (run remote n getDailyTip)
                       = Fulfilled (text response)).
Proof.
  split.
  - intros v H. apply fulfilled_inv in H. apply H.
  - intros response Ho. rewrite run_tip, Ho. reflexivity.
Qed.

Lemma results_are_verbatim_witness :
  (exists t, Samples.answers Samples.extra 0 (food_request [])
             = Resolves {| text := Some t |}
             /\ JSON.parse (trim t)
                = inr (JObj [(js "name", JStr (js "Mate"));
                             (js "nutrition", JObj []);
                             (js "confidence", JNum (mkNum false 9 (-1)))]))
  /\ snd (run (Samples.answers Samples.tip) 0 getDailyTip)
     = Fulfilled (Some Samples.tip).
Proof.
  destruct (results_are_verbatim (Samples.answers Samples.extra) 0 [])
    as (Hfood & _).
  destruct (results_are_verbatim (Samples.answers Samples.tip) 0 [])
    as (_ & Htip).
  split.
  - apply Hfood. vm_compute. reflexivity.
  - apply Htip with (response := {| text := Some Samples.tip |}). reflexivity.
Defined.

(** A response that passes the two checks is returned. *)
Lemma run_success remote n img v :
  parsed_as (remote n (food_request img)) v ->
  falsy_field v (js "error") ->
  truthy_field v (js "name") -> truthy_field v (js "nutrition") ->
  run remote n (estimateNutritionFromImage img)
  = ([Requested (food_request img)], Fulfilled v).
Proof.
  intros Hv He Hn Hu.
  estimate_cases remote n img v' Hrun; rewrite Hrun.
  - now rewrite (parsed_as_fun Hparsed Hv).
  - exfalso. inversion Hfailure as
      [r Ho | Ho | t e Ho Hp | w e Hw Hg | w x Hw Hg Hx | w Hw _ Hm]; subst.
    + destruct Hv as (t & Ht & _). congruence.
    + destruct Hv as (t & Ht & _). congruence.
    + destruct Hv as (t' & Ht & Hp'). rewrite Ho in Ht.
      injection Ht as <-. congruence.
    + rewrite (parsed_as_fun Hw Hv) in Hg.
      destruct He as (y & Hy & _). congruence.
    + rewrite (parsed_as_fun Hw Hv) in Hg.
      destruct He as (y & Hy & Hfalse). congruence.
    + rewrite (parsed_as_fun Hw Hv) in Hm.
      destruct Hm; eauto using falsy_not_truthy.
Qed.

(** C7. [classifyFood] returns [v] exactly when the trimmed response text
    parses as JSON to [v] with a falsy [error], a truthy [name] and a truthy
    [nutrition]; nothing else is checked: an answer without [portionSize],
    whose nutrition has negative calories and lacks protein, carbs and fat,
    is returned as a success. *)
Theorem success_condition :
  (forall (remote : Remote) (n : nat) (img : jsstring) (v : JsValue),
      snd (run remote n (classifyFood img)) = Fulfilled v
      <-> (parsed_as (remote n (food_request img)) v
           /\ falsy_field v (js "error")
           /\ truthy_field v (js "name")
           /\ truthy_field v (js "nutrition")))
  /\ (exists v nu,
         snd (run (Samples.answers Samples.bare) 0 (classifyFood []))
         = Fulfilled v
         /\ own_field v (js "portionSize") = None
         /\ own_field v (js "nutrition") = Some nu
         /\ own_field nu (js "calories") = Some (JNum (mkNum true 120 0))
         /\ own_field nu (js "protein") = None
         /\ own_field nu (js "carbs") = None
         /\ own_field nu (js "fat") = None).
Proof.
  split.
  - intros remote n img v. unfold classifyFood. split.
    + apply fulfilled_inv.
    + intros (Hv & He & Hn & Hu). now rewrite (@run_success remote n img v Hv He Hn Hu).
  - exists (JObj [(js "name", JStr (js "Asado"));
                  (js "nutrition",
                   JObj [(js "calories", JNum (mkNum true 120 0))])]).
    exists (JObj [(js "calories", JNum (mkNum true 120 0))]).
    repeat split; vm_compute; reflexivity.
Qed.

Lemma success_condition_witness :
  exists v, snd (run (Samples.answers Samples.asado) 0 (classifyFood []))
            = Fulfilled v.
Proof.
  destruct (JSON.parse (trim Samples.asado)) as [e|v] eqn:Hp;
    [vm_compute in Hp; discriminate|].
  exists v.
  apply (proj1 success_condition (Samples.answers Samples.asado) 0 [] v).
  vm_compute in Hp. injection Hp as <-.
  split; [|split; [|split]].
  - exists Samples.asado. split; vm_compute; reflexivity.
  - exists JUndefined. split; vm_compute; reflexivity.
  - exists (JStr (js "Asado")). split; vm_compute; reflexivity.
  - eexists. split; vm_compute; reflexivity.
Defined.

(** C2, as the spec words it, fails: an answer without [name] makes the
    call fail, but the error the caller gets is the generic "Failed to
    analyze image" one, not "Could not identify the food". *)
Lemma could_not_identify_not_delivered :
  let o := Samples.answers Samples.no_name 0 (food_request []) in
  let res := snd (run (Samples.answers Samples.no_name) 0 (classifyFood [])) in
  (exists v, parsed_as o v /\ missing_field v (js "name"))
  /\ res = RejectedWith (Error (JStr FAILED_TO_ANALYZE))
  /\ res <> RejectedWith (Error (JStr COULD_NOT_IDENTIFY)).
Proof.
  split; [|split].
  - eexists. split.
    + exists Samples.no_name. split; [reflexivity|]. vm_compute. reflexivity.
    + vm_compute. reflexivity.
  - vm_compute. reflexivity.
  - vm_compute. intros [=].
Qed.

(** C2, amended. When the parsed response misses [name] or [nutrition],
    [classifyFood] fails and the caller gets the generic "Failed to analyze
    image" error; "Could not identify the food. Please try another photo."
    is the error the [try] block throws when [error] is falsy, and it goes
    to the log only. *)
Theorem missing_field_fails (remote : Remote) (n : nat) (img : jsstring)
  (v : JsValue) :
  parsed_as (remote n (food_request img)) v ->
  missing_field v (js "name") \/ missing_field v (js "nutrition") ->
  snd (run remote n (classifyFood img))
  = RejectedWith (Error (JStr FAILED_TO_ANALYZE))
  /\ (falsy_field v (js "error") ->
      fst (run remote n (classifyFood img))
      = [Requested (food_request img);
         Logged API_LABEL (Error (JStr COULD_NOT_IDENTIFY))]).
Proof.
  intros Hv Hmiss. unfold classifyFood.
  assert (Hfalsy : falsy_field v (js "name") \/ falsy_field v (js "nutrition"))
    by (destruct Hmiss; [left|right]; now apply missing_is_falsy).
  estimate_cases remote n img v' Hrun; rewrite Hrun; cbn [fst snd].
  - exfalso. rewrite (parsed_as_fun Hparsed Hv) in *.
    destruct Hfalsy; eauto using falsy_not_truthy.
  - split; [reflexivity|]. intros He. do 3 f_equal.
    inversion Hfailure as
      [r Ho | Ho | t e Ho Hp | w e Hw Hg | w x Hw Hg Hx | w Hw _ Hm]; subst.
    + destruct Hv as (t & Ht & _). congruence.
    + destruct Hv as (t & Ht & _). congruence.
    + destruct Hv as (t' & Ht & Hp'). rewrite Ho in Ht.
      injection Ht as <-. congruence.
    + rewrite (parsed_as_fun Hw Hv) in Hg.
      destruct He as (y & Hy & _). congruence.
    + rewrite (parsed_as_fun Hw Hv) in Hg.
      destruct He as (y & Hy & Hfalse). congruence.
    + reflexivity.
Qed.

Lemma missing_field_fails_witness :
  run (Samples.answers Samples.no_name) 0 (classifyFood [])
  = ([Requested (food_request []);
      Logged API_LABEL (Error (JStr COULD_NOT_IDENTIFY))],
     RejectedWith (Error (JStr FAILED_TO_ANALYZE))).
Proof.
  destruct (JSON.parse (trim Samples.no_name)) as [e|v] eqn:Hp;
    [vm_compute in Hp; discriminate|].
  destruct (@missing_field_fails (Samples.answers Samples.no_name) 0 [] v)
    as (Hres & Hlog).
  - exists Samples.no_name. split; [reflexivity | exact Hp].
  - left. vm_compute in Hp. injection Hp as <-. vm_compute. reflexivity.
  - rewrite (surjective_pairing (run _ _ _)), Hres, Hlog; [reflexivity|].
    vm_compute in Hp. injection Hp as <-.
    exists JUndefined. split; vm_compute; reflexivity.
Defined.





(* ================================================================= *)
(** * Further properties of the two operations *)

(** The [try] block throws one thing at most. *)
Lemma failure_fun o c c' : Failure o c -> Failure o c' -> c = c'.
Proof.
  intros H1 H2. inversion H1; inversion H2; subst;
    unfold parsed_as, falsy_field in *;
    repeat match goal with
      | H : exists _, _ |- _ => destruct H
      | H : _ /\ _ |- _ => destruct H
      | H : _ \/ _ |- _ => destruct H
      end; congruence.
Qed.

(** A response that passes the checks throws nothing. *)
Lemma failure_excludes_success o c v :
  Failure o c -> parsed_as o v -> falsy_field v (js "error") ->
  truthy_field v (js "name") -> truthy_field v (js "nutrition") -> False.
Proof.
  intros H Hv He Hn Hu. inversion H; subst;
    unfold parsed_as, falsy_field, truthy_field in *;
    repeat match goal with
      | H : exists _, _ |- _ => destruct H
      | H : _ /\ _ |- _ => destruct H
      | H : _ \/ _ |- _ => destruct H
      end; congruence.
Qed.

(** X1. [estimateNutritionFromImage] writes to the diagnostic channel
    exactly when it fails: a returned result comes with a trace that holds
    the request and nothing else, a rejection with the request followed by
    one [console.error] line labelled "Gemini API error:". *)
Theorem logs_exactly_on_failure (remote : Remote) (n : nat) (img : jsstring) :
  let r := run remote n (estimateNutritionFromImage img) in
  match snd r with
  | Fulfilled _ => fst r = [Requested (food_request img)]
  | RejectedWith _ =>
      exists cause,
        fst r = [Requested (food_request img); Logged API_LABEL cause]
  end.
Proof.
  intros r. subst r.
  estimate_cases remote n img v Hrun; rewrite Hrun; cbn [fst snd]; eauto.
Qed.

(** X2. What the log line carries is the raw error of the [try] block,
    case by case as [Failure] lists them: the rejection reason of the remote
    call itself, a [TypeError] for a response without text or for the JSON
    [null], the parser's error for text that is not JSON, [Error] of the
    [error] field when that is truthy, and the "Could not identify" error
    when [name] or [nutrition] is falsy. *)
Theorem logged_cause (remote : Remote) (n : nat) (img : jsstring)
  (cause : exn) :
  Failure (remote n (food_request img)) cause
  <-> fst (run remote n (estimateNutritionFromImage img))
      = [Requested (food_request img); Logged API_LABEL cause].
Proof.
  split.
  - intros Hf. estimate_cases remote n img v Hrun; rewrite Hrun; cbn [fst].
    + exfalso. eauto using failure_excludes_success.
    + now rewrite (failure_fun Hf Hfailure).
  - intros H. estimate_cases remote n img v Hrun; rewrite Hrun in H;
      cbn [fst] in H.
    + discriminate.
    + injection H as <-. assumption.
Qed.

Lemma logged_cause_witness :
  fst (run Samples.offline 0 (estimateNutritionFromImage []))
  = [Requested (food_request []);
     Logged API_LABEL (ApiError 503 (js "Service Unavailable"))]
  /\ Failure (Samples.answers (js "null") 0 (food_request [])) TypeError.
Proof.
  split.
  - apply (proj1 (logged_cause Samples.offline 0 []
                    (ApiError 503 (js "Service Unavailable")))).
    apply Failure_transport. reflexivity.
  - apply (proj2 (logged_cause (Samples.answers (js "null")) 0 [] TypeError)).
    vm_compute. reflexivity.
Defined.

(** X3. [getDailyTip] substitutes the fallback and logs only when the
    remote call is rejected: then the log holds the raw reason under the
    label "Gemini tip generation error:"; a call that resolves logs nothing,
    and returning the fallback text then means the model wrote it. An empty
    or absent tip is handed on as it is. *)
Theorem tip_fallback_only_on_rejection (remote : Remote) (n : nat) :
  let o := remote n tip_request in
  let r := run remote n getDailyTip in
  (forall reason, o = Rejects reason ->
                  logged (fst r) = [(TIP_LABEL, reason)]
                  /\ snd r = Fulfilled (Some TIP_FALLBACK))
  /\ (forall response, o = Resolves response ->
                       logged (fst r) = []
                       /\ snd r = Fulfilled (text response))
  /\ (snd r = Fulfilled (Some TIP_FALLBACK) ->
      (exists reason, o = Rejects reason)
      \/ o = Resolves {| text := Some TIP_FALLBACK |})
  /\ (logged (fst r) <> [] -> snd r = Fulfilled (Some TIP_FALLBACK)).
Proof.
  intros o r. subst o r. rewrite run_tip.
  destruct (remote n tip_request) as [[t]|reason]; cbn;
    (split; [|split; [|split]]).
  - discriminate.
  - intros response [= <-]. auto.
  - intros [= ->]. now right.
  - intros H. now contradiction H.
  - intros reason' [= <-]. auto.
  - discriminate.
  - intros _. left. eauto.
  - reflexivity.
Qed.

Lemma tip_fallback_only_on_rejection_witness :
  (logged (fst (run Samples.offline 0 getDailyTip))
   = [(TIP_LABEL, ApiError 503 (js "Service Unavailable"))]
   /\ snd (run Samples.offline 0 getDailyTip)
      = Fulfilled (Some TIP_FALLBACK))
  /\ (logged (fst (run (Samples.answers []) 0 getDailyTip)) = []
      /\ snd (run (Samples.answers []) 0 getDailyTip) = Fulfilled (Some [])).
Proof.
  destruct (tip_fallback_only_on_rejection Samples.offline 0)
    as (Hrej & _).
  destruct (tip_fallback_only_on_rejection (Samples.answers []) 0)
    as (_ & Hres & _).
  split.
  - apply Hrej. reflexivity.
  - apply (Hres {| text := Some [] |}). reflexivity.
Defined.

(** X4. Whatever [estimateNutritionFromImage] returns is a JSON object
    with own properties [name] and [nutrition], both truthy: [null], an
    array, a string, a number or a boolean is never handed to the caller. *)
Theorem result_is_object (remote : Remote) (n : nat) (img : jsstring)
  (v : JsValue) :
  snd (run remote n (estimateNutritionFromImage img)) = Fulfilled v ->
  exists props name nutrition,
    v = JObj props
    /\ lookup (js "name") props = Some name /\ truthy name = true
    /\ lookup (js "nutrition") props = Some nutrition
    /\ truthy nutrition = true.
Proof.
  intros H. apply fulfilled_inv in H.
  destruct H as (_ & _ & (nm & Hn & Hnm) & (nu & Hu & Hnu)).
  destruct v as [| |b|x|s|items|props]; cbn [get] in Hn, Hu;
    try discriminate Hn;
    try (injection Hn as <-; cbn in Hnm; discriminate Hnm).
  exists props, nm, nu.
  destruct (lookup (js "name") props) as [a|];
    [|injection Hn as <-; cbn in Hnm; discriminate Hnm].
  destruct (lookup (js "nutrition") props) as [b|];
    [|injection Hu as <-; cbn in Hnu; discriminate Hnu].
  injection Hn as <-. injection Hu as <-. auto.
Qed.

Lemma result_is_object_witness :
  exists props name nutrition,
    JObj [(js "name", JStr (js "Mate")); (js "nutrition", JObj []);
          (js "confidence", JNum (mkNum false 9 (-1)))]
    = JObj props
    /\ lookup (js "name") props = Some name /\ truthy name = true
    /\ lookup (js "nutrition") props = Some nutrition
    /\ truthy nutrition = true.
Proof.
  apply (@result_is_object (Samples.answers Samples.extra) 0 []).
  vm_compute. reflexivity.
Defined.

(** ** The response text counts up to the white space around it *)

Lemma trimStart_blank s : all_whitespace s = true -> trimStart s = [].
Proof.
  induction s as [|c r IH]; cbn; [reflexivity|].
  destruct (is_js_whitespace c); cbn; [exact IH | discriminate].
Qed.

Lemma trimStart_nil_blank s : trimStart s = [] -> all_whitespace s = true.
Proof.
  induction s as [|c r IH]; cbn; [reflexivity|].
  destruct (is_js_whitespace c); cbn; [exact IH | discriminate].
Qed.

Lemma trimStart_after_blank pre s :
  all_whitespace pre = true -> trimStart (pre ++ s) = trimStart s.
Proof.
  induction pre as [|c r IH]; cbn; [reflexivity|].
  destruct (is_js_whitespace c); cbn; [exact IH | discriminate].
Qed.

Lemma trimStart_keeps_tail s p :
  trimStart s <> [] -> trimStart (s ++ p) = trimStart s ++ p.
Proof.
  induction s as [|c r IH]; cbn; [congruence|].
  destruct (is_js_whitespace c); [exact IH | reflexivity].
Qed.

Lemma all_whitespace_rev s : all_whitespace (rev s) = all_whitespace s.
Proof.
  unfold all_whitespace. induction s as [|c r IH]; cbn; [reflexivity|].
  rewrite forallb_app, IH. cbn. rewrite andb_true_r. apply andb_comm.
Qed.

Lemma all_whitespace_app s p :
  all_whitespace (s ++ p) = all_whitespace s && all_whitespace p.
Proof. apply forallb_app. Qed.

Lemma trim_blank s : all_whitespace s = true -> trim s = [].
Proof.
  intros H. unfold trim. now rewrite (@trimStart_blank s H).
Qed.

Lemma trim_padding pre t post :
  all_whitespace pre = true -> all_whitespace post = true ->
  trim (pre ++ t ++ post) = trim t.
Proof.
  intros Hpre Hpost. unfold trim. rewrite (@trimStart_after_blank pre (t ++ post) Hpre).
  destruct (trimStart t) as [|c r] eqn:Ht.
  - apply trimStart_nil_blank in Ht.
    rewrite (@trimStart_blank (t ++ post)); [reflexivity|].
    now rewrite all_whitespace_app, Ht, Hpost.
  - rewrite trimStart_keeps_tail by congruence. rewrite Ht, rev_app_distr.
    rewrite (@trimStart_after_blank (rev post)); [reflexivity|].
    now rewrite all_whitespace_rev.
Qed.

(** Whatever makes the [try] block throw ends in the log and in the
    generic rejection. *)
Lemma run_failure remote n img cause :
  Failure (remote n (food_request img)) cause ->
  run remote n (estimateNutritionFromImage img)
  = ([Requested (food_request img); Logged API_LABEL cause],
     RejectedWith (Error (JStr FAILED_TO_ANALYZE))).
Proof.
  intros Hf. estimate_cases remote n img v Hrun; rewrite Hrun.
  - exfalso. eauto using failure_excludes_success.
  - now rewrite (failure_fun Hf Hfailure).
Qed.

(** Two calls whose response texts agree once trimmed settle alike and log
    alike. *)
Lemma run_same_trimmed_text remote remote' n n' a b t t' :
  remote n (food_request a) = Resolves {| text := Some t |} ->
  remote' n' (food_request b) = Resolves {| text := Some t' |} ->
  trim t = trim t' ->
  snd (run remote n (estimateNutritionFromImage a))
  = snd (run remote' n' (estimateNutritionFromImage b))
  /\ logged (fst (run remote n (estimateNutritionFromImage a)))
     = logged (fst (run remote' n' (estimateNutritionFromImage b))).
Proof.
  intros Ho Ho' Htrim.
  unfold estimateNutritionFromImage, generateContent.
  cbn [try_catch bind run]. rewrite Ho, Ho'.
  cbn [text String_trim try_catch bind run]. rewrite Htrim.
  destruct (JSON.parse (trim t')) as [e|v]; [split; reflexivity|].
  cbn [lift try_catch bind run].
  destruct (get v (js "error")) as [e|x] eqn:He; [split; reflexivity|].
  cbn [lift try_catch bind run throw_if].
  destruct (truthy x); [split; reflexivity|].
  destruct (get_defined _ _ He (js "name")) as [nm Hn].
  destruct (get_defined _ _ He (js "nutrition")) as [nu Hu].
  unfold or_else. rewrite Hn, Hu.
  cbn [lift try_catch bind run throw_if].
  destruct (truthy nm); [destruct (truthy nu)|]; split; reflexivity.
Qed.

(** X5. A response text of white space only, the empty text included,
    is no JSON: the call logs the [SyntaxError] and fails with the generic
    error. *)
Theorem blank_response_fails (remote : Remote) (n : nat) (img t : jsstring) :
  all_whitespace t = true ->
  remote n (food_request img) = Resolves {| text := Some t |} ->
  run remote n (estimateNutritionFromImage img)
  = ([Requested (food_request img); Logged API_LABEL SyntaxError],
     RejectedWith (Error (JStr FAILED_TO_ANALYZE))).
Proof.
  intros Hblank Ho. apply run_failure.
  apply Failure_syntax with t; [exact Ho|].
  now rewrite (@trim_blank t Hblank).
Qed.

Lemma blank_response_fails_witness :
  run (Samples.answers Padding.blank) 0 (estimateNutritionFromImage [])
  = ([Requested (food_request []); Logged API_LABEL SyntaxError],
     RejectedWith (Error (JStr FAILED_TO_ANALYZE))).
Proof.
  apply blank_response_fails with (t := Padding.blank).
  - vm_compute. reflexivity.
  - reflexivity.
Defined.

(** X6. White space around the response text changes nothing, and white
    space here is what [trim] strips, which is more than JSON allows: a
    byte order mark or a no-break space around the answer would stop
    [JSON.parse], and the call still settles and logs as without them. *)
Theorem padding_is_ignored (remote remote' : Remote) (n : nat)
  (img t pre post : jsstring) :
  all_whitespace pre = true -> all_whitespace post = true ->
  remote n (food_request img) = Resolves {| text := Some t |} ->
  remote' n (food_request img)
  = Resolves {| text := Some (pre ++ t ++ post) |} ->
  run remote' n (estimateNutritionFromImage img)
  = run remote n (estimateNutritionFromImage img).
Proof.
  intros Hpre Hpost Ho Ho'.
  destruct (@run_same_trimmed_text remote' remote n n img img
              (pre ++ t ++ post) t Ho' Ho
              (@trim_padding pre t post Hpre Hpost))
    as (Hres & Hlog).
  rewrite (surjective_pairing (run remote' n _)),
    (surjective_pairing (run remote n _)).
  f_equal; [|exact Hres].
  revert Hres Hlog.
  estimate_cases remote' n img v Hrun; rewrite Hrun;
    estimate_cases remote n img v' Hrun'; rewrite Hrun'; cbn;
    intros Hres Hlog; congruence.
Qed.

Lemma padding_is_ignored_witness :
  run (Samples.answers Padding.padded_asado) 0 (estimateNutritionFromImage [])
  = run (Samples.answers Samples.asado) 0 (estimateNutritionFromImage [])
  /\ JSON.parse Padding.padded_asado = inl SyntaxError.
Proof.
  split.
  - apply padding_is_ignored
      with (t := Samples.asado) (pre := Padding.bom) (post := Padding.nbsp);
      reflexivity.
  - vm_compute. reflexivity.
Defined.

(** X7. The image is forwarded and never looked at: two calls, with any
    images, on any remotes, whose remote calls settle the same way end the
    same way and log the same cause. *)
Theorem image_is_only_forwarded (remote remote' : Remote) (n n' : nat)
  (a b : jsstring) :
  remote n (food_request a) = remote' n' (food_request b) ->
  snd (run remote n (estimateNutritionFromImage a))
  = snd (run remote' n' (estimateNutritionFromImage b))
  /\ logged (fst (run remote n (estimateNutritionFromImage a)))
     = logged (fst (run remote' n' (estimateNutritionFromImage b))).
Proof.
  intros Ho.
  destruct (remote' n' (food_request b)) as [[[t|]]|reason] eqn:Ho'.
  - now apply run_same_trimmed_text with t t.
  - unfold estimateNutritionFromImage, generateContent.
    cbn [try_catch bind run]. rewrite Ho, Ho'. split; reflexivity.
  - unfold estimateNutritionFromImage, generateContent.
    cbn [try_catch bind run]. rewrite Ho, Ho'. split; reflexivity.
Qed.

Lemma image_is_only_forwarded_witness :
  snd (run (Samples.answers Samples.bare) 0
         (estimateNutritionFromImage (js "/9j/4AAQSkZJRg==")))
  = snd (run (Samples.answers Samples.bare) 7 (estimateNutritionFromImage []))
  /\ logged (fst (run (Samples.answers Samples.bare) 0
                    (estimateNutritionFromImage (js "/9j/4AAQSkZJRg=="))))
     = logged (fst (run (Samples.answers Samples.bare) 7
                      (estimateNutritionFromImage []))).
Proof.
  apply image_is_only_forwarded. reflexivity.
Defined.
